(** * Prellblock c-client: the throughput harness of [c-client/client.cpp]

    A shallow embedding of [main] and of the C library calls it makes, and
    the properties of the harness that follow from it.

    The harness talks to three collaborators that are not part of the
    translation unit: the wall clock ([std::chrono::system_clock]), the
    Prellblock client library behind [prellblock-client.h], and [std::cout].
    They are modelled as an interface over an abstract world; every call is
    logged in a trace, so that the order and the arguments of the calls can
    be stated.

    Conventions: [size_t] and [unsigned long] are 64 bits wide (LP64), so
    that ["%lu"] prints the whole counter; the array [number] is the ten
    bytes on the stack that [sprintf] writes through the cast pointer; what
    a write past its end does is a parameter of the run ([Memory]);
    [double] is IEEE 754 binary64 with the default rounding and no traps;
    a call to a collaborator returns. *)

From Stdlib Require Import ZArith String Ascii Bool List Sorted Lia.
From Stdlib Require Import SpecFloat.
Import ListNotations.

Local Open Scope Z_scope.

(** ** C strings and [sprintf("%lu")] *)

Module CStr.

(** The terminator of a C string. *)
Definition NUL : ascii := Ascii.zero.

(** The character of a decimal digit [d], ['0' + d]. *)
Definition digit_char (d : Z) : ascii :=
  ascii_of_nat (Z.to_nat (48 + d)).

(** The value of a digit character, [c - '0']. *)
Definition digit_val (c : ascii) : Z :=
  Z.of_nat (nat_of_ascii c) - 48.

(** Digits of [n], least significant first, pushed in front of [acc]:
    the usual conversion loop of [%lu]. *)
Fixpoint lu_digits (fuel : nat) (n : Z) (acc : list ascii) : list ascii :=
  match fuel with
  | O => acc
  | S fuel' =>
      let acc' := digit_char (n mod 10) :: acc in
      if n / 10 =? 0 then acc' else lu_digits fuel' (n / 10) acc'
  end.

(** An [unsigned long] of 64 bits has at most 20 decimal digits. *)
Definition lu_max_digits : nat := 20.

(** The characters [%lu] produces for [n]. *)
Definition fmt_lu (n : Z) : list ascii := lu_digits lu_max_digits n [].

(** The number a string of decimal digits denotes. *)
Definition parse_lu (l : list ascii) : Z :=
  fold_left (fun a c => a * 10 + digit_val c) l 0.

(** [sprintf(buf, "%lu", n)]: the digits and the terminator are written
    from the start of [buf]; the bytes behind them keep their value.
    Writing past the end of the array is undefined behaviour, reported
    as [None]. *)
Definition sprintf_lu (buf : list ascii) (n : Z) : option (list ascii) :=
  let out := fmt_lu n ++ [NUL] in
  if (length out <=? length buf)%nat
  then Some (out ++ skipn (length out) buf)
  else None.

(** [sprintf(mem, "%lu", n)] where [mem] is all the memory from the start
    of the array on, the bytes behind the array included: the digits and
    the terminator are written whether the array is long enough or not. *)
Definition sprintf_lu_flat (mem : list ascii) (n : Z) : list ascii :=
  let out := fmt_lu n ++ [NUL] in
  out ++ skipn (List.length out) mem.

(** The C string stored at the start of [buf]: the characters before the
    first terminator. *)
Fixpoint c_str (buf : list ascii) : list ascii :=
  match buf with
  | [] => []
  | c :: rest => if Ascii.eqb c NUL then [] else c :: c_str rest
  end.

(** One of the characters ['0'] ... ['9']. *)
Definition is_decimal_digit (c : ascii) : bool :=
  ((48 <=? nat_of_ascii c) && (nat_of_ascii c <=? 57))%nat.

(** A character other than the terminator. *)
Definition is_digit (c : ascii) : Prop := Ascii.eqb c NUL = false.

End CStr.

(** ** IEEE 754 binary64, the [double] of the harness *)

Module Double.

Definition double : Type := spec_float.

Definition prec : Z := 53.
Definition emax : Z := 1024.

(** [(double)z] for an integer [z]: round to nearest, ties to even. *)
Definition of_int (z : Z) : double := binary_normalize prec emax z 0 false.

(** [x / y] on doubles. *)
Definition div (x y : double) : double := SFdiv prec emax x y.

Definition pos_infinity : double := S754_infinity false.
Definition pos_zero : double := S754_zero false.

(** [std::isnan]. *)
Definition is_nan (x : double) : bool :=
  match x with
  | S754_nan => true
  | _ => false
  end.

(** A zero of either sign. *)
Definition is_zero (x : double) : bool :=
  match x with
  | S754_zero _ => true
  | _ => false
  end.

(** [std::signbit]; a NaN of this model carries no sign. *)
Definition signbit (x : double) : bool :=
  match x with
  | S754_zero s | S754_infinity s | S754_finite s _ _ => s
  | S754_nan => false
  end.

(** A number (not a NaN) whose sign bit is [sx]. *)
Definition signed_as (sx : bool) (x : double) : Prop :=
  is_nan x = false /\ signbit x = sx.

End Double.

(** ** The harness *)

Module Harness.

Import CStr.

(** *** The collaborators *)

(** A [prellblock::Client *], as the address it holds. *)
Definition Handle : Type := Z.

(** The null pointer: what a C interface that returns a pointer hands
    back when it could not create the object. *)
Definition null_handle : Handle := 0.

Definition connect_failed (h : Handle) : bool := h =? null_handle.

(** Modelled from the spec: [prellblock-client.h] is not part of the
    sources, so what one key/value write comes to on the remote side is
    taken from the collaborator interface of the design, where a write is
    acknowledged or fails ([Ack | RemoteError]).  Whatever the C function
    returns, [main] discards it. *)
Inductive SubmitOutcome : Type :=
| Ack
| RemoteError.

Definition is_ack (o : SubmitOutcome) : bool :=
  match o with Ack => true | RemoteError => false end.

(** Modelled from the spec: the three functions [main] calls from
    [prellblock-client.h], which is not part of the sources, as
    transitions of the world outside the harness. *)
Class PrellblockClient (W : Type) : Type := {
  create_client_instance : string -> string -> W -> Handle * W;
  send_key_value : Handle -> string -> string -> W -> SubmitOutcome * W;
  destroy_client_instance : Handle -> W -> W
}.

(** The clocks of [<chrono>] and whether they are monotonic
    ([Clock::is_steady]). *)
Inductive Clock : Type :=
| system_clock
| steady_clock.

Definition is_steady (c : Clock) : bool :=
  match c with
  | system_clock => false
  | steady_clock => true
  end.

(** [std::chrono::system_clock::now()]: a reading is the tick count of
    the time point; how many ticks make a microsecond is left to the
    implementation (1000 where the clock counts nanoseconds). *)
Class SystemClock (W : Type) : Type := {
  ticks_per_microsecond : Z;
  system_clock_now : W -> Z * W
}.

(** *** What a run leaves behind *)

(** One call to a collaborator, with its arguments and what it answered. *)
Inductive Event : Type :=
| EvNow (c : Clock) (t : Z)
| EvCreate (address credential : string) (h : Handle)
| EvSend (h : Handle) (key value : string) (o : SubmitOutcome)
| EvDestroy (h : Handle).

(** One [operator<<] on [std::cout]. *)
Inductive OutItem : Type :=
| OStr (s : string)
| OInt (n : Z)
| ODouble (d : Double.double)
| OEndl.

Record State (W : Type) : Type := mkState {
  world : W;
  trace : list Event;
  cout : list OutItem
}.
Arguments mkState {W} _ _ _.
Arguments world {W} _.
Arguments trace {W} _.
Arguments cout {W} _.

Definition initial {W : Type} (w : W) : State W := mkState w [] [].

(** *** State and faults *)

Inductive Fault : Type :=
| BufferOverflow
| OutOfFuel.

Definition M (W A : Type) : Type := State W -> Fault + (A * State W).

Definition ret {W A : Type} (a : A) : M W A := fun s => inr (a, s).

Definition bind {W A B : Type} (c : M W A) (k : A -> M W B) : M W B :=
  fun s =>
    match c s with
    | inl f => inl f
    | inr (a, s') => k a s'
    end.

Definition fail {W A : Type} (f : Fault) : M W A := fun _ => inl f.

Declare Scope harness_scope.
Delimit Scope harness_scope with harness.
Notation "x <- c ;; k" := (bind c (fun x => k))
  (at level 61, c at next level, right associativity) : harness_scope.
Notation "c ;; k" := (bind c (fun _ => k))
  (at level 61, right associativity) : harness_scope.
Local Open Scope harness_scope.

(** *** 64-bit arithmetic *)

(** [size_t] arithmetic wraps modulo 2^64. *)
Definition wrap_size_t (z : Z) : Z := z mod 2 ^ 64.

(** The two's complement value of a 64-bit result. *)
Definition wrap_int64 (z : Z) : Z := (z + 2 ^ 63) mod 2 ^ 64 - 2 ^ 63.

(** *** The constants of [client.cpp] *)

Definition NUM_TX : Z := 10000.

Definition address : string := "127.0.0.1:3133".

Definition credential : string :=
  "406ed6170c8672e18707fb7512acf3c9dbfc6e5ad267d9a57b9c486a94d99dcc".

Definition key_namespace : string := "prellblock".

(** [const char number[10] = {0}]. *)
Definition number_capacity : nat := 10.
Definition number_init : list ascii := repeat NUL number_capacity.

(** The largest [N] the ten bytes of [number] are enough for: nine digits
    and the terminator. *)
Definition buffer_limit : Z := 10 ^ 9.

(** What a write past the end of [number] does, which the source does not
    say.  [Checked]: the run stops there ([BufferOverflow]); this is the
    reading under which the write is an error.  [Flat behind]: the bytes
    land in the memory behind the array, whose contents are [behind], and
    the run goes on, as a compiled program does that keeps nothing else
    there; [send_key_value] reads its string from the start of the array
    up to the terminator, wherever that is. *)
Inductive Memory : Type :=
| Checked
| Flat (behind : list ascii).

Section WithWorld.

Context {W : Type} {client_lib : PrellblockClient W} {clock : SystemClock W}.

(** *** The calls, each logged *)

Definition now : M W Z :=
  fun s =>
    let '(t, w) := system_clock_now (world s) in
    inr (t, mkState w (trace s ++ [EvNow system_clock t]) (cout s)).

Definition create (addr cred : string) : M W Handle :=
  fun s =>
    let '(h, w) := create_client_instance addr cred (world s) in
    inr (h, mkState w (trace s ++ [EvCreate addr cred h]) (cout s)).

(** The result of [send_key_value] is dropped, as in the source. *)
Definition send (h : Handle) (key value : string) : M W unit :=
  fun s =>
    let '(o, w) := send_key_value h key value (world s) in
    inr (tt, mkState w (trace s ++ [EvSend h key value o]) (cout s)).

Definition destroy (h : Handle) : M W unit :=
  fun s =>
    inr (tt, mkState (destroy_client_instance h (world s))
                     (trace s ++ [EvDestroy h]) (cout s)).

Definition print (item : OutItem) : M W unit :=
  fun s => inr (tt, mkState (world s) (trace s) (cout s ++ [item])).

(** *** [main] *)

(** [for (size_t i = ...; i < N; i++) { sprintf(number, "%lu", i);
    send_key_value(client, "prellblock", number); }], from the current
    [i] and the current contents of [number].  The comparison is between
    [size_t] values: [N] is converted, so a negative [N] counts as
    [2^64 + N]. *)
Fixpoint send_loop (fuel : nat) (mem : Memory) (N i : Z) (client : Handle)
         (number : list ascii) : M W unit :=
  match fuel with
  | O => fail OutOfFuel
  | S fuel' =>
      if i <? wrap_size_t N then
        match sprintf_lu number i with
        | Some number' =>
            send client key_namespace
                 (string_of_list_ascii (c_str number')) ;;
            send_loop fuel' mem N (wrap_size_t (i + 1)) client number'
        | None =>
            match mem with
            | Checked => fail BufferOverflow
            | Flat behind =>
                let written := sprintf_lu_flat (number ++ behind) i in
                send client key_namespace
                     (string_of_list_ascii (c_str written)) ;;
                send_loop fuel' (Flat (skipn number_capacity written)) N
                          (wrap_size_t (i + 1)) client
                          (firstn number_capacity written)
            end
        end
      else ret tt
  end.

(** [duration_cast<microseconds>(end - start).count()]: integer
    division truncates towards zero. *)
Definition elapsed_microseconds (start end_ : Z) : Z :=
  Z.quot (wrap_int64 (end_ - start)) ticks_per_microsecond.

(** [(double)microseconds / 1000 / 1000]. *)
Definition to_seconds (microseconds : Z) : Double.double :=
  Double.div (Double.div (Double.of_int microseconds) (Double.of_int 1000))
             (Double.of_int 1000).

(** [(double)NUM_TX / seconds]. *)
Definition tps (N : Z) (seconds : Double.double) : Double.double :=
  Double.div (Double.of_int N) seconds.

(** What is written to [std::cout]. *)
Definition report (N : Z) (seconds : Double.double) : list OutItem :=
  [ OStr "Sending "; OInt N; OStr " transactions took "; ODouble seconds;
    OStr "s, resulting in "; ODouble (tps N seconds); OStr "TPS."; OEndl ].

(** The body of [main], with the macro [NUM_TX] as [N]. *)
Definition harness (mem : Memory) (N : Z) : M W Z :=
  start <- now ;;
  client <- create address credential ;;
  send_loop (S (Z.to_nat (wrap_size_t N))) mem N 0 client number_init ;;
  destroy client ;;
  end_ <- now ;;
  let microseconds := elapsed_microseconds start end_ in
  let seconds := to_seconds microseconds in
  print (OStr "Sending ") ;;
  print (OInt N) ;;
  print (OStr " transactions took ") ;;
  print (ODouble seconds) ;;
  print (OStr "s, resulting in ") ;;
  print (ODouble (tps N seconds)) ;;
  print (OStr "TPS.") ;;
  print OEndl ;;
  ret 0.

Definition main : M W Z := harness Checked NUM_TX.

(** A run from the world [w]: the exit code and the final state, or the
    fault. *)
Definition run_with (mem : Memory) (N : Z) (w : W) : Fault + (Z * State W) :=
  harness mem N (initial w).

Definition run (N : Z) (w : W) : Fault + (Z * State W) :=
  run_with Checked N w.

Definition run_main (w : W) : Fault + (Z * State W) := main (initial w).

End WithWorld.

(** *** Reading a trace *)

(** The (key, value) pairs handed to [send_key_value], in call order. *)
Fixpoint submissions (tr : list Event) : list (string * string) :=
  match tr with
  | [] => []
  | EvSend _ key value _ :: rest => (key, value) :: submissions rest
  | _ :: rest => submissions rest
  end.

(** How many writes the remote side acknowledged. *)
Fixpoint successful_count (tr : list Event) : Z :=
  match tr with
  | [] => 0
  | EvSend _ _ _ o :: rest =>
      (if is_ack o then 1 else 0) + successful_count rest
  | _ :: rest => successful_count rest
  end.

Definition is_send (e : Event) : bool :=
  match e with EvSend _ _ _ _ => true | _ => false end.


Definition is_destroy (e : Event) : bool :=
  match e with EvDestroy _ => true | _ => false end.

Definition is_now (e : Event) : bool :=
  match e with EvNow _ _ => true | _ => false end.

Definition count (p : Event -> bool) (tr : list Event) : nat :=
  List.length (filter p tr).

(** What the collaborators answered, in call order: all a run gets to
    see of the world. *)
Inductive Response : Type :=
| RTime (t : Z)
| RHandle (h : Handle)
| ROutcome (o : SubmitOutcome)
| RVoid.

Definition response (e : Event) : Response :=
  match e with
  | EvNow _ t => RTime t
  | EvCreate _ _ h => RHandle h
  | EvSend _ _ _ o => ROutcome o
  | EvDestroy _ => RVoid
  end.



(** The handle an event passes to the library, if it passes one. *)
Definition handle_used (e : Event) : option Handle :=
  match e with
  | EvSend h _ _ _ => Some h
  | EvDestroy h => Some h
  | _ => None
  end.

(** The events of the loop from counter [i] on, one for each outcome. *)
Fixpoint send_events (h : Handle) (i : Z) (outs : list SubmitOutcome)
  : list Event :=
  match outs with
  | [] => []
  | o :: outs' =>
      EvSend h key_namespace (string_of_list_ascii (fmt_lu i)) o
        :: send_events h (i + 1) outs'
  end.

(** The integers [i, i+1, ..., i+n-1]. *)
Fixpoint counters (i : Z) (n : nat) : list Z :=
  match n with
  | O => []
  | S n' => i :: counters (i + 1) n'
  end.

(** The value of the transaction with counter [i]. *)
Definition value_of (i : Z) : string := string_of_list_ascii (fmt_lu i).


(** *** The report as text *)

Definition show_int (n : Z) : string :=
  if n <? 0
  then String "-" (string_of_list_ascii (fmt_lu (- n)))
  else string_of_list_ascii (fmt_lu n).

(** The characters of the report; how [operator<<] writes a [double] is
    the stream's business and comes in as [show_double]. *)
Fixpoint render (show_double : Double.double -> string)
         (items : list OutItem) : string :=
  match items with
  | [] => EmptyString
  | OStr s :: rest => s ++ render show_double rest
  | OInt n :: rest => show_int n ++ render show_double rest
  | ODouble d :: rest => show_double d ++ render show_double rest
  | OEndl :: rest => String "010" (render show_double rest)
  end%string.

(** *** Looking at the result of a run *)

Definition is_number (o : OutItem) : bool :=
  match o with
  | OInt _ | ODouble _ => true
  | OStr _ | OEndl => false
  end.

Section Results.

Context {W : Type} {client_lib : PrellblockClient W} {clock : SystemClock W}.

(** The shape of a completed run: the two clock readings [t0] and [t1],
    the handle [h] and the outcomes [outs] of the writes. *)
Definition run_shape (N : Z) (w : W) (s : State W)
           (t0 : Z) (h : Handle) (outs : list SubmitOutcome) (t1 : Z) : Prop :=
  trace s = [EvNow system_clock t0; EvCreate address credential h]
              ++ send_events h 0 outs
              ++ [EvDestroy h; EvNow system_clock t1]
  /\ List.length outs = Z.to_nat (wrap_size_t N)
  /\ cout s = report N (to_seconds (elapsed_microseconds t0 t1))
  /\ t0 = fst (system_clock_now w)
  /\ h = fst (create_client_instance address credential
                (snd (system_clock_now w))).

End Results.

End Harness.

(** ** A Session as the design describes it, and a world built on it *)

Module Sim.

Import Harness.

Inductive Lifecycle : Type :=
| Open
| Closed.

(** Modelled from the spec: the Session of the design (a target address,
    a credential and an Open/Closed state); the library that implements
    it is not part of the sources. *)
Record Session : Type := mkSession {
  target : string;
  token : string;
  lifecycle : Lifecycle
}.

(** Modelled from the spec: [open] returns a Session in Open state. *)
Definition open (addr cred : string) : Session := mkSession addr cred Open.

(** Modelled from the spec: [submit] fails if the session is Closed. *)
Definition submit (s : Session) (remote_ok : bool) : SubmitOutcome :=
  match lifecycle s with
  | Open => if remote_ok then Ack else RemoteError
  | Closed => RemoteError
  end.

(** Modelled from the spec: [close] releases the connection and moves to
    Closed; on a Closed session it changes nothing and reports nothing. *)
Definition close (s : Session) : Session :=
  match lifecycle s with
  | Open => mkSession (target s) (token s) Closed
  | Closed => s
  end.

(** A world to run the harness in: the clock readings still to come, an
    endpoint that is reachable or not and that acknowledges writes or not,
    the session (if one was opened) and the number of times it was told to
    close. *)
Record World : Type := mkWorld {
  readings : list Z;
  reachable : bool;
  remote_ok : bool;
  session : option Session;
  closes : nat
}.

Definition the_handle : Handle := 4096.

Definition sim_now (w : World) : Z * World :=
  match readings w with
  | [] => (0, w)
  | t :: rest =>
      (t, mkWorld rest (reachable w) (remote_ok w) (session w) (closes w))
  end.

Definition sim_create (addr cred : string) (w : World) : Handle * World :=
  if reachable w
  then (the_handle,
        mkWorld (readings w) (reachable w) (remote_ok w)
                (Some (open addr cred)) (closes w))
  else (null_handle, w).

Definition sim_send (h : Handle) (key value : string) (w : World)
  : SubmitOutcome * World :=
  match session w with
  | Some s => (if h =? the_handle then submit s (remote_ok w) else RemoteError, w)
  | None => (RemoteError, w)
  end.

Definition sim_destroy (h : Handle) (w : World) : World :=
  mkWorld (readings w) (reachable w) (remote_ok w)
          (option_map close (session w)) (S (closes w)).

#[export] Instance sim_client : PrellblockClient World := {
  create_client_instance := sim_create;
  send_key_value := sim_send;
  destroy_client_instance := sim_destroy
}.

(** A clock that counts nanoseconds. *)
#[export] Instance sim_clock : SystemClock World := {
  ticks_per_microsecond := 1000;
  system_clock_now := sim_now
}.

(** The endpoint is up and acknowledges; the run takes two seconds. *)
Definition healthy : World :=
  mkWorld [1000000000; 3000000000] true true None O.

(** The endpoint cannot be reached; the run takes two seconds. *)
Definition unreachable : World :=
  mkWorld [1000000000; 3000000000] false false None O.

(** The endpoint is up and rejects every write. *)
Definition rejecting : World :=
  mkWorld [1000000000; 3000000000] true false None O.

(** As [healthy], but the close counter starts elsewhere: a difference no
    answer of the collaborators shows. *)
Definition healthy_again : World :=
  mkWorld [1000000000; 3000000000] true true None 7.

(** Both clock readings are the same. *)
Definition instant : World :=
  mkWorld [5000; 5000] true true None O.

End Sim.

(** ** The properties the design document asks for, in its words *)

Module Design.

Import Harness.

(** The start is read from a monotonic clock after the session is opened
    and before the first write, the end after the last write and before
    the session is closed. *)
Definition timing_spans_loop_only (tr : list Event) : Prop :=
  exists a c h c0 t0 sends c1 t1,
    tr = [EvCreate a c h; EvNow c0 t0] ++ sends ++ [EvNow c1 t1; EvDestroy h]
    /\ forallb is_send sends = true
    /\ is_steady c0 = true /\ is_steady c1 = true.

(** The reported TPS is the number of acknowledged writes over the
    elapsed seconds. *)
Definition tps_counts_successes (tr : list Event) (seconds reported : Double.double)
  : Prop :=
  reported = Double.div (Double.of_int (successful_count tr)) seconds.

(** The report carries the requested count, the successful count, the
    elapsed seconds and the TPS. *)
Definition report_has_four (out : list OutItem)
           (requested successful : Z) (seconds rate : Double.double) : Prop :=
  In (OInt requested) out
  /\ (In (OInt successful) out \/ In (ODouble (Double.of_int successful)) out)
  /\ In (ODouble seconds) out
  /\ In (ODouble rate) out.

(** A failed connection ends the run: nothing is submitted, no metrics
    are printed and the exit status is not zero. *)
Definition aborted_on_connect_failure (code : Z) (tr : list Event)
           (out : list OutItem) : Prop :=
  submissions tr = []
  /\ (forall d, ~ In (ODouble d) out)
  /\ code <> 0.

(** A run that works with the address [a], the credential [c], the count
    [n] and the namespace [ns]. *)
Definition uses_config (a c : string) (n : Z) (ns : string) (tr : list Event)
  : Prop :=
  (exists h, In (EvCreate a c h) tr)
  /\ Z.of_nat (List.length (submissions tr)) = n
  /\ Forall (fun tx => fst tx = ns) (submissions tr).

End Design.

(** ** Facts about [%lu] and the buffer *)

Module CStrFacts.

Import CStr.

Lemma digit_val_char (d : Z) : 0 <= d <= 9 -> digit_val (digit_char d) = d.
Proof.
  intros Hd. unfold digit_val, digit_char.
  rewrite nat_ascii_embedding by lia. lia.
Qed.

Lemma digit_char_not_NUL (d : Z) :
  0 <= d <= 9 -> Ascii.eqb (digit_char d) NUL = false.
Proof.
  intros Hd. apply Ascii.eqb_neq. intros E.
  apply (f_equal digit_val) in E. rewrite digit_val_char in E by exact Hd.
  unfold digit_val, NUL in E. simpl in E. lia.
Qed.

Lemma lu_digits_no_NUL (fuel : nat) :
  forall n acc, Forall is_digit acc -> Forall is_digit (lu_digits fuel n acc).
Proof.
  induction fuel as [|fuel IH]; intros n acc Hacc; simpl; [exact Hacc|].
  assert (Hd : Forall is_digit (digit_char (n mod 10) :: acc)).
  { constructor; [|exact Hacc].
    apply digit_char_not_NUL. pose proof (Z.mod_pos_bound n 10). lia. }
  destruct (n / 10 =? 0); [exact Hd | apply IH; exact Hd].
Qed.

Lemma fmt_lu_no_NUL (n : Z) : Forall is_digit (fmt_lu n).
Proof. apply lu_digits_no_NUL. constructor. Qed.

(** The conversion never produces the empty string. *)
Lemma lu_digits_grows (fuel : nat) :
  forall n acc, (List.length acc <= List.length (lu_digits fuel n acc))%nat.
Proof.
  induction fuel as [|fuel IH]; intros n acc; simpl; [lia|].
  destruct (n / 10 =? 0); simpl; [lia|].
  specialize (IH (n / 10) (digit_char (n mod 10) :: acc)). simpl in IH. lia.
Qed.

(** A number below [10^k] has at most [k] digits. *)
Lemma lu_digits_length_le (fuel : nat) :
  forall (k : nat) n acc,
    (1 <= k)%nat -> 0 <= n < 10 ^ Z.of_nat k ->
    (List.length (lu_digits fuel n acc) <= k + List.length acc)%nat.
Proof.
  induction fuel as [|fuel IH]; intros k n acc Hk Hn; simpl; [lia|].
  destruct (n / 10 =? 0) eqn:E; simpl; [lia|].
  apply Z.eqb_neq in E.
  destruct k as [|k]; [lia|].
  destruct k as [|k].
  - exfalso. apply E. apply Z.div_small. simpl in Hn. lia.
  - assert (Hq : 0 <= n / 10 < 10 ^ Z.of_nat (S k)).
    { split; [apply Z.div_pos; lia|].
      apply Z.div_lt_upper_bound; [lia|].
      replace (Z.of_nat (S (S k))) with (Z.succ (Z.of_nat (S k))) in Hn by lia.
      rewrite Z.pow_succ_r in Hn by lia. lia. }
    specialize (IH (S k) (n / 10) (digit_char (n mod 10) :: acc)
                   ltac:(lia) Hq).
    simpl in IH. simpl. lia.
Qed.

(** A number of at least [10^k] has more than [k] digits, if the fuel
    covers it. *)
Lemma lu_digits_length_gt (fuel : nat) :
  forall (k : nat) n acc,
    10 ^ Z.of_nat k <= n < 10 ^ Z.of_nat fuel ->
    (k + List.length acc < List.length (lu_digits fuel n acc))%nat.
Proof.
  induction fuel as [|fuel IH]; intros k n acc Hn.
  - exfalso. assert (0 < 10 ^ Z.of_nat k) by (apply Z.pow_pos_nonneg; lia).
    simpl in Hn. lia.
  - simpl. destruct (n / 10 =? 0) eqn:E.
    + apply Z.eqb_eq in E.
      assert (0 < 10 ^ Z.of_nat k) by (apply Z.pow_pos_nonneg; lia).
      assert (n < 10).
      { destruct (Z_lt_ge_dec n 10) as [L|G]; [exact L|].
        exfalso. assert (1 <= n / 10) by (apply Z.div_le_lower_bound; lia).
        lia. }
      destruct k as [|k]; simpl; [lia|].
      exfalso.
      replace (Z.of_nat (S k)) with (Z.succ (Z.of_nat k)) in Hn by lia.
      rewrite Z.pow_succ_r in Hn by lia.
      assert (0 < 10 ^ Z.of_nat k) by (apply Z.pow_pos_nonneg; lia). lia.
    + apply Z.eqb_neq in E.
      assert (Hup : n / 10 < 10 ^ Z.of_nat fuel).
      { apply Z.div_lt_upper_bound; [lia|].
        replace (Z.of_nat (S fuel)) with (Z.succ (Z.of_nat fuel)) in Hn by lia.
        rewrite Z.pow_succ_r in Hn by lia. lia. }
      destruct k as [|k].
      * pose proof (lu_digits_grows fuel (n / 10) (digit_char (n mod 10) :: acc)) as G.
        simpl in G. simpl. lia.
      * assert (Hlo : 10 ^ Z.of_nat k <= n / 10).
        { apply Z.div_le_lower_bound; [lia|].
          replace (Z.of_nat (S k)) with (Z.succ (Z.of_nat k)) in Hn by lia.
          rewrite Z.pow_succ_r in Hn by lia. lia. }
        specialize (IH k (n / 10) (digit_char (n mod 10) :: acc)
                       (conj Hlo Hup)).
        simpl in IH. simpl. lia.
Qed.

Lemma fmt_lu_length_le (k : nat) (n : Z) :
  (1 <= k)%nat -> 0 <= n < 10 ^ Z.of_nat k ->
  (List.length (fmt_lu n) <= k)%nat.
Proof.
  intros Hk Hn. unfold fmt_lu.
  pose proof (lu_digits_length_le lu_max_digits k n [] Hk Hn) as L.
  cbn [List.length] in L. lia.
Qed.

Lemma fmt_lu_length_gt (k : nat) (n : Z) :
  10 ^ Z.of_nat k <= n < 2 ^ 64 ->
  (k < List.length (fmt_lu n))%nat.
Proof.
  intros Hn. unfold fmt_lu.
  assert (H : 10 ^ Z.of_nat k <= n < 10 ^ Z.of_nat lu_max_digits).
  { split; [lia|]. unfold lu_max_digits.
    change (10 ^ Z.of_nat 20) with 100000000000000000000.
    change (2 ^ 64) with 18446744073709551616 in Hn. lia. }
  pose proof (lu_digits_length_gt lu_max_digits k n [] H) as G.
  cbn [List.length] in G. lia.
Qed.

(** Reading the digits back gives the number. *)
Lemma parse_lu_digits (fuel : nat) :
  forall n acc,
    0 <= n < 10 ^ Z.of_nat fuel -> (1 <= fuel)%nat ->
    fold_left (fun a c => a * 10 + digit_val c) (lu_digits fuel n acc) 0
    = fold_left (fun a c => a * 10 + digit_val c) acc n.
Proof.
  induction fuel as [|fuel IH]; intros n acc Hn Hf; [lia|].
  simpl.
  pose proof (Z.mod_pos_bound n 10 ltac:(lia)) as Hm.
  pose proof (Z.div_mod n 10 ltac:(lia)) as Hdm.
  destruct (n / 10 =? 0) eqn:E.
  - apply Z.eqb_eq in E. simpl. rewrite digit_val_char by lia.
    f_equal. lia.
  - apply Z.eqb_neq in E.
    assert (Hq : 0 <= n / 10 < 10 ^ Z.of_nat fuel).
    { split; [apply Z.div_pos; lia|].
      apply Z.div_lt_upper_bound; [lia|].
      replace (Z.of_nat (S fuel)) with (Z.succ (Z.of_nat fuel)) in Hn by lia.
      rewrite Z.pow_succ_r in Hn by lia. lia. }
    destruct fuel as [|fuel].
    + exfalso. apply E. simpl in Hq. lia.
    + rewrite IH by (try exact Hq; lia).
      simpl. rewrite digit_val_char by lia. f_equal. lia.
Qed.

Lemma parse_fmt_lu (n : Z) : 0 <= n < 2 ^ 64 -> parse_lu (fmt_lu n) = n.
Proof.
  intros Hn. unfold parse_lu, fmt_lu.
  rewrite parse_lu_digits.
  - reflexivity.
  - unfold lu_max_digits.
    change (10 ^ Z.of_nat 20) with 100000000000000000000.
    change (2 ^ 64) with 18446744073709551616 in Hn. lia.
  - unfold lu_max_digits. lia.
Qed.

(** The C string in front of a terminator is read back whole. *)
Lemma c_str_app_NUL (l rest : list ascii) :
  Forall is_digit l -> c_str (l ++ NUL :: rest) = l.
Proof.
  induction 1 as [|c l Hc Hl IH]; simpl.
  - reflexivity.
  - unfold is_digit in Hc. rewrite Hc. f_equal. exact IH.
Qed.

(** [sprintf] succeeds exactly when digits and terminator fit. *)
Lemma sprintf_lu_Some (buf : list ascii) (n : Z) :
  (List.length (fmt_lu n) + 1 <= List.length buf)%nat ->
  exists buf', sprintf_lu buf n = Some buf'.
Proof.
  intros H. unfold sprintf_lu. rewrite length_app. simpl.
  destruct (Nat.leb_spec (List.length (fmt_lu n) + 1) (List.length buf)); [|lia].
  eexists. reflexivity.
Qed.

Lemma sprintf_lu_inv (buf buf' : list ascii) (n : Z) :
  sprintf_lu buf n = Some buf' ->
  (List.length (fmt_lu n) + 1 <= List.length buf)%nat
  /\ List.length buf' = List.length buf
  /\ c_str buf' = fmt_lu n.
Proof.
  unfold sprintf_lu. rewrite length_app. simpl.
  destruct (Nat.leb_spec (List.length (fmt_lu n) + 1) (List.length buf)) as [L|L];
    [|discriminate].
  intros E. injection E as <-. split; [exact L|]. split.
  - rewrite !length_app, length_skipn. simpl. lia.
  - rewrite <- app_assoc. simpl. apply c_str_app_NUL. apply fmt_lu_no_NUL.
Qed.




End CStrFacts.

(** ** Facts about the harness *)

Module HarnessFacts.

Import CStr CStrFacts Harness.
Local Open Scope harness_scope.

Lemma fits_iff_small (i : Z) :
  0 <= i < 2 ^ 64 ->
  (List.length (fmt_lu i) + 1 <= number_capacity)%nat <-> i < buffer_limit.
Proof.
  intros Hi. unfold number_capacity, buffer_limit. split.
  - intros L. destruct (Z_lt_ge_dec i (10 ^ 9)) as [Lt|Ge]; [exact Lt|].
    pose proof (fmt_lu_length_gt 9 i) as G.
    change (Z.of_nat 9) with 9 in G. specialize (G ltac:(lia)). lia.
  - intros Lt. pose proof (fmt_lu_length_le 9 i ltac:(lia)) as L.
    change (Z.of_nat 9) with 9 in L. specialize (L ltac:(lia)). lia.
Qed.

(** *** Reading the events of the loop *)

Lemma submissions_app (a b : list Event) :
  submissions (a ++ b) = submissions a ++ submissions b.
Proof.
  induction a as [|e a IH]; simpl; [reflexivity|].
  destruct e; simpl; rewrite IH; reflexivity.
Qed.

Lemma successful_count_app (a b : list Event) :
  successful_count (a ++ b) = successful_count a + successful_count b.
Proof.
  induction a as [|e a IH]; simpl; [reflexivity|].
  destruct e; simpl; rewrite IH; lia.
Qed.

Lemma count_app (p : Event -> bool) (a b : list Event) :
  count p (a ++ b) = (count p a + count p b)%nat.
Proof. unfold count. rewrite filter_app, length_app. reflexivity. Qed.

Lemma submissions_send_events (h : Handle) (outs : list SubmitOutcome) :
  forall i,
    submissions (send_events h i outs)
    = map (fun j => (key_namespace, value_of j)) (counters i (List.length outs)).
Proof.
  induction outs as [|o outs IH]; intros i; simpl; [reflexivity|].
  rewrite IH. reflexivity.
Qed.


Lemma send_events_handle (h : Handle) (outs : list SubmitOutcome) :
  forall i, Forall (fun e => handle_used e = Some h) (send_events h i outs).
Proof.
  induction outs as [|o outs IH]; intros i; simpl; constructor;
    [reflexivity|apply IH].
Qed.


Lemma count_send_events_other (p : Event -> bool) (h : Handle)
      (outs : list SubmitOutcome) :
  (forall h' k v o, p (EvSend h' k v o) = false) ->
  forall i, count p (send_events h i outs) = O.
Proof.
  intros Hp. unfold count.
  induction outs as [|o outs IH]; intros i; simpl; [reflexivity|].
  rewrite Hp. apply IH.
Qed.

Lemma responses_send_events (h : Handle) (outs : list SubmitOutcome) :
  forall i, map response (send_events h i outs) = map ROutcome outs.
Proof.
  induction outs as [|o outs IH]; intros i; simpl; [|rewrite IH]; reflexivity.
Qed.

Lemma filter_send_events_other (p : Event -> bool) (h : Handle)
      (outs : list SubmitOutcome) :
  (forall h' k v o, p (EvSend h' k v o) = false) ->
  forall i, filter p (send_events h i outs) = [].
Proof.
  intros Hp. induction outs as [|o outs IH]; intros i; simpl; [reflexivity|].
  rewrite Hp. apply IH.
Qed.

Lemma send_events_In (h : Handle) (outs : list SubmitOutcome) (e : Event) :
  forall i, In e (send_events h i outs) -> is_send e = true.
Proof.
  induction outs as [|o outs IH]; intros i; simpl; [tauto|].
  intros [<-|Hin]; [reflexivity|]. apply (IH _ Hin).
Qed.

Lemma successful_count_send_events (h : Handle) (o : SubmitOutcome) (n : nat) :
  forall i,
    successful_count (send_events h i (repeat o n))
    = if is_ack o then Z.of_nat n else 0.
Proof.
  induction n as [|n IH]; intros i; [destruct (is_ack o); reflexivity|].
  cbn [repeat send_events successful_count]. rewrite IH.
  destruct (is_ack o); lia.
Qed.

(** *** The counters *)

Lemma counters_length (n : nat) : forall i, List.length (counters i n) = n.
Proof. induction n as [|n IH]; intros i; simpl; [|rewrite IH]; reflexivity. Qed.






Section WithWorld.

Context {W : Type} {client_lib : PrellblockClient W} {clock : SystemClock W}.

(** The loop, when it comes back: it made one call for each counter
    from [i] below [N], in order, and wrote nothing to [cout]; and [N]
    was small enough for the buffer. *)
Lemma send_loop_inv (fuel : nat) :
  forall (N i : Z) (h : Handle) (buf : list ascii) (s s' : State W),
    0 <= i <= buffer_limit ->
    List.length buf = number_capacity ->
    send_loop fuel Checked N i h buf s = inr (tt, s') ->
    wrap_size_t N <= buffer_limit
    /\ cout s' = cout s
    /\ exists outs,
        List.length outs = Z.to_nat (wrap_size_t N - i)
        /\ trace s' = trace s ++ send_events h i outs.
Proof.
  unfold buffer_limit.
  induction fuel as [|fuel IH]; intros N i h buf s s' Hi Hbuf Hrun;
    simpl in Hrun; [discriminate|].
  destruct (Z.ltb_spec i (wrap_size_t N)) as [Lt|Ge].
  - destruct (sprintf_lu buf i) as [buf'|] eqn:Esp; [|discriminate].
    apply sprintf_lu_inv in Esp. destruct Esp as (Hfit & Hlen & Hstr).
    rewrite Hbuf in Hfit.
    assert (Hsmall : i < 10 ^ 9).
    { apply (fits_iff_small i); [|exact Hfit].
      change (2 ^ 64) with 18446744073709551616. lia. }
    unfold bind, send in Hrun.
    destruct (send_key_value h key_namespace
                (string_of_list_ascii (c_str buf')) (world s)) as [o w1] eqn:Esend.
    assert (Hw : wrap_size_t (i + 1) = i + 1).
    { unfold wrap_size_t. apply Z.mod_small.
      change (2 ^ 64) with 18446744073709551616. lia. }
    rewrite Hw in Hrun.
    apply IH in Hrun; [|lia|congruence].
    destruct Hrun as (HN & Hcout & outs & Houts & Htr).
    split; [exact HN|]. split; [exact Hcout|].
    exists (o :: outs). split.
    + simpl. rewrite Houts. lia.
    + rewrite Htr. simpl. rewrite <- app_assoc. simpl.
      rewrite Hstr. reflexivity.
  - unfold ret in Hrun. injection Hrun as <-.
    split; [lia|]. split; [reflexivity|].
    exists []. split.
    + simpl. lia.
    + simpl. rewrite app_nil_r. reflexivity.
Qed.

(** The loop does come back when the buffer is large enough for [N] and
    the fuel covers the iterations left. *)
Lemma send_loop_total (fuel : nat) :
  forall (N i : Z) (h : Handle) (buf : list ascii) (s : State W),
    0 <= i ->
    wrap_size_t N <= buffer_limit ->
    List.length buf = number_capacity ->
    (Z.to_nat (wrap_size_t N - i) < fuel)%nat ->
    exists s', send_loop fuel Checked N i h buf s = inr (tt, s').
Proof.
  unfold buffer_limit.
  induction fuel as [|fuel IH]; intros N i h buf s Hi HN Hbuf Hfuel; [lia|].
  simpl. destruct (Z.ltb_spec i (wrap_size_t N)) as [Lt|Ge].
  - assert (Hfit : (List.length (fmt_lu i) + 1 <= List.length buf)%nat).
    { rewrite Hbuf. apply fits_iff_small; unfold buffer_limit;
        change (2 ^ 64) with 18446744073709551616; lia. }
    destruct (sprintf_lu_Some buf i Hfit) as [buf' Esp].
    rewrite Esp. apply sprintf_lu_inv in Esp.
    destruct Esp as (_ & Hlen & _).
    unfold bind, send.
    destruct (send_key_value h key_namespace
                (string_of_list_ascii (c_str buf')) (world s)) as [o w1].
    assert (Hw : wrap_size_t (i + 1) = i + 1).
    { unfold wrap_size_t. apply Z.mod_small.
      change (2 ^ 64) with 18446744073709551616. lia. }
    rewrite Hw. apply IH; [lia|lia|congruence|lia].
  - eexists. reflexivity.
Qed.


Lemma now_spec (s : State W) :
  now s = inr (fst (system_clock_now (world s)),
               mkState (snd (system_clock_now (world s)))
                       (trace s ++ [EvNow system_clock
                                      (fst (system_clock_now (world s)))])
                       (cout s)).
Proof. unfold now. destruct (system_clock_now (world s)); reflexivity. Qed.

Lemma create_spec (addr cred : string) (s : State W) :
  create addr cred s
  = inr (fst (create_client_instance addr cred (world s)),
         mkState (snd (create_client_instance addr cred (world s)))
                 (trace s ++ [EvCreate addr cred
                                (fst (create_client_instance addr cred (world s)))])
                 (cout s)).
Proof.
  unfold create. destruct (create_client_instance addr cred (world s)); reflexivity.
Qed.

(** What [main] does after the loop, from the state the loop left. *)
Lemma after_loop (N t0 : Z) (h : Handle) (s2 : State W) :
  (destroy h ;;
   end_ <- now ;;
   let microseconds := elapsed_microseconds t0 end_ in
   let seconds := to_seconds microseconds in
   print (OStr "Sending ") ;;
   print (OInt N) ;;
   print (OStr " transactions took ") ;;
   print (ODouble seconds) ;;
   print (OStr "s, resulting in ") ;;
   print (ODouble (tps N seconds)) ;;
   print (OStr "TPS.") ;;
   print OEndl ;;
   ret 0) s2
  = let w3 := system_clock_now (destroy_client_instance h (world s2)) in
    inr (0, mkState (snd w3)
                    (trace s2 ++ [EvDestroy h; EvNow system_clock (fst w3)])
                    (cout s2 ++ report N (to_seconds
                                            (elapsed_microseconds t0 (fst w3))))).
Proof.
  unfold bind at 1. unfold destroy. unfold bind at 1. rewrite now_spec.
  cbv beta iota zeta. unfold bind, print, ret, report.
  cbn [world trace cout]. rewrite <- !app_assoc. reflexivity.
Qed.

Lemma run_with_unfold (mem : Memory) (N : Z) (w : W) :
  let t0 := fst (system_clock_now w) in
  let w0 := snd (system_clock_now w) in
  let h := fst (create_client_instance address credential w0) in
  let w1 := snd (create_client_instance address credential w0) in
  run_with mem N w
  = match send_loop (S (Z.to_nat (wrap_size_t N))) mem N 0 h number_init
            (mkState w1 [EvNow system_clock t0; EvCreate address credential h] [])
    with
    | inl f => inl f
    | inr (_, s2) =>
        let w3 := system_clock_now (destroy_client_instance h (world s2)) in
        inr (0, mkState (snd w3)
                        (trace s2 ++ [EvDestroy h; EvNow system_clock (fst w3)])
                        (cout s2 ++ report N (to_seconds
                                                (elapsed_microseconds t0 (fst w3)))))
    end.
Proof.
  intros t0 w0 h w1. unfold run_with, harness.
  unfold bind at 1. rewrite now_spec.
  unfold bind at 1. rewrite create_spec.
  unfold bind at 1. cbn [initial world trace cout app].
  fold t0 w0 h w1.
  destruct (send_loop (S (Z.to_nat (wrap_size_t N))) mem N 0 h number_init _)
    as [f|[u s2]]; [reflexivity|].
  apply after_loop.
Qed.

Lemma run_unfold (N : Z) (w : W) :
  let t0 := fst (system_clock_now w) in
  let w0 := snd (system_clock_now w) in
  let h := fst (create_client_instance address credential w0) in
  let w1 := snd (create_client_instance address credential w0) in
  run N w
  = match send_loop (S (Z.to_nat (wrap_size_t N))) Checked N 0 h number_init
            (mkState w1 [EvNow system_clock t0; EvCreate address credential h] [])
    with
    | inl f => inl f
    | inr (_, s2) =>
        let w3 := system_clock_now (destroy_client_instance h (world s2)) in
        inr (0, mkState (snd w3)
                        (trace s2 ++ [EvDestroy h; EvNow system_clock (fst w3)])
                        (cout s2 ++ report N (to_seconds
                                                (elapsed_microseconds t0 (fst w3)))))
    end.
Proof. exact (run_with_unfold Checked N w). Qed.

Lemma run_inv (N : Z) (w : W) (code : Z) (s : State W) :
  run N w = inr (code, s) ->
  wrap_size_t N <= buffer_limit /\ code = 0
  /\ exists t0 h outs t1, run_shape N w s t0 h outs t1.
Proof.
  rewrite run_unfold. cbv zeta.
  destruct (send_loop _ _ _ _ _ _ _) as [f|[[] s2]] eqn:Eloop; [discriminate|].
  apply send_loop_inv in Eloop;
    [|unfold buffer_limit; lia|unfold number_init; apply repeat_length].
  destruct Eloop as (HN & Hcout & outs & Houts & Htr).
  cbn [trace cout] in Hcout, Htr.
  intros E. injection E as <- <-.
  split; [exact HN|]. split; [reflexivity|].
  eexists _, _, outs, _. unfold run_shape. cbn [trace cout].
  rewrite Htr, Hcout, Houts, Z.sub_0_r. rewrite <- !app_assoc.
  repeat split; reflexivity.
Qed.

Lemma run_total (N : Z) (w : W) :
  wrap_size_t N <= buffer_limit -> exists s, run N w = inr (0, s).
Proof.
  intros HN. rewrite run_unfold. cbv zeta.
  match goal with
  | |- context [send_loop ?f Checked ?n ?i ?h ?b ?s] =>
      destruct (send_loop_total f n i h b s) as [s2 E]
  end; [lia|exact HN|unfold number_init; apply repeat_length|lia|].
  rewrite E. eexists. reflexivity.
Qed.

Lemma run_main_eq (w : W) : run_main w = run NUM_TX w.
Proof. reflexivity. Qed.


(** [main] always comes back, with exit code 0. *)
Lemma num_tx_fits : wrap_size_t NUM_TX <= buffer_limit.
Proof. vm_compute. discriminate. Qed.

Lemma run_main_total (w : W) : exists s, run_main w = inr (0, s).
Proof. apply (run_total NUM_TX w). exact num_tx_fits. Qed.

Lemma run_main_inv (w : W) (code : Z) (s : State W) :
  run_main w = inr (code, s) ->
  code = 0 /\ exists t0 h outs t1, run_shape NUM_TX w s t0 h outs t1.
Proof. intros E. apply (run_inv NUM_TX) in E. tauto. Qed.

(** The loop against a library that answers every write the same way and
    leaves the world as it is. *)
Lemma send_loop_stable (fuel : nat) :
  forall (N i : Z) (h : Handle) (buf : list ascii) (s : State W)
         (o : SubmitOutcome),
    (forall k v, send_key_value h k v (world s) = (o, world s)) ->
    0 <= i ->
    wrap_size_t N <= buffer_limit ->
    List.length buf = number_capacity ->
    (Z.to_nat (wrap_size_t N - i) < fuel)%nat ->
    send_loop fuel Checked N i h buf s
    = inr (tt, mkState (world s)
                       (trace s ++ send_events h i (repeat o (Z.to_nat (wrap_size_t N - i))))
                       (cout s)).
Proof.
  unfold buffer_limit.
  induction fuel as [|fuel IH]; intros N i h buf s o Hsend Hi HN Hbuf Hfuel; [lia|].
  simpl. destruct (Z.ltb_spec i (wrap_size_t N)) as [Lt|Ge].
  - assert (Hfit : (List.length (fmt_lu i) + 1 <= List.length buf)%nat).
    { rewrite Hbuf. apply fits_iff_small; unfold buffer_limit;
        change (2 ^ 64) with 18446744073709551616; lia. }
    destruct (sprintf_lu_Some buf i Hfit) as [buf' Esp].
    rewrite Esp. apply sprintf_lu_inv in Esp.
    destruct Esp as (_ & Hlen & Hstr).
    unfold bind, send. rewrite Hsend, Hstr.
    assert (Hw : wrap_size_t (i + 1) = i + 1).
    { unfold wrap_size_t. apply Z.mod_small.
      change (2 ^ 64) with 18446744073709551616. lia. }
    rewrite Hw.
    rewrite (IH N (i + 1) h buf' _ o); cbn [world trace cout];
      [|exact Hsend|lia|lia|congruence|lia].
    replace (Z.to_nat (wrap_size_t N - i)) with (S (Z.to_nat (wrap_size_t N - (i + 1)))) by lia.
    rewrite <- app_assoc. reflexivity.
  - unfold ret. replace (Z.to_nat (wrap_size_t N - i)) with O by lia.
    simpl. rewrite app_nil_r. destruct s; reflexivity.
Qed.

(** The whole run, in closed form, against such a library. *)
Lemma run_stable (N : Z) (w : W) (o : SubmitOutcome) :
  let t0 := fst (system_clock_now w) in
  let w0 := snd (system_clock_now w) in
  let h := fst (create_client_instance address credential w0) in
  let w1 := snd (create_client_instance address credential w0) in
  let t1 := fst (system_clock_now (destroy_client_instance h w1)) in
  (forall k v, send_key_value h k v w1 = (o, w1)) ->
  wrap_size_t N <= buffer_limit ->
  run N w
  = inr (0, mkState (snd (system_clock_now (destroy_client_instance h w1)))
                    ([EvNow system_clock t0; EvCreate address credential h]
                       ++ send_events h 0 (repeat o (Z.to_nat (wrap_size_t N)))
                       ++ [EvDestroy h; EvNow system_clock t1])
                    (report N (to_seconds (elapsed_microseconds t0 t1)))).
Proof.
  intros t0 w0 h w1 t1 Hsend HN.
  rewrite run_unfold. cbv zeta. fold t0 w0 h w1.
  rewrite (send_loop_stable _ _ _ _ _ _ o);
    cbn [world trace cout];
    [|exact Hsend|lia|exact HN|unfold number_init; apply repeat_length|lia].
  fold t1. rewrite Z.sub_0_r, <- app_assoc. reflexivity.
Qed.







(** Every run of [main] completes, with the shape of the source. *)
Lemma main_runs (w : W) :
  exists s t0 h outs t1,
    run_main w = inr (0, s) /\ run_shape NUM_TX w s t0 h outs t1.
Proof.
  destruct (run_main_total w) as [s E].
  destruct (run_main_inv w 0 s E) as (_ & t0 & h & outs & t1 & Hs).
  exists s, t0, h, outs, t1. split; assumption.
Qed.


End WithWorld.

End HarnessFacts.

(** ** The properties of the harness *)

Module Properties.

Import CStr CStrFacts Harness HarnessFacts Design.

Section AnyWorld.

Context {W : Type} {client_lib : PrellblockClient W} {clock : SystemClock W}.

(** What the trace of a completed run says about the submissions. *)
Lemma shape_submissions (N : Z) (w : W) (s : State W)
      (t0 : Z) (h : Handle) (outs : list SubmitOutcome) (t1 : Z) :
  run_shape N w s t0 h outs t1 ->
  submissions (trace s)
  = map (fun i => (key_namespace, value_of i))
        (counters 0 (Z.to_nat (wrap_size_t N))).
Proof.
  intros (Htr & Hlen & _). rewrite Htr.
  rewrite !submissions_app, submissions_send_events, Hlen. simpl.
  rewrite app_nil_r. reflexivity.
Qed.



(** C7: with [NUM_TX] = 10000, the digits of every counter below
    [NUM_TX] and the terminator fit the ten bytes of [number]:
    [sprintf] stays inside the array, whatever the array held. *)
Theorem counter_fits_number_buffer (i : Z) (buf : list ascii) (w : W) :
  0 <= i < NUM_TX ->
  List.length buf = number_capacity ->
  (List.length (fmt_lu i ++ [NUL]) <= number_capacity)%nat
  /\ (exists buf',
         sprintf_lu buf i = Some buf'
         /\ List.length buf' = number_capacity
         /\ c_str buf' = fmt_lu i)
  /\ run_main w <> inl BufferOverflow.
Proof.
  unfold NUM_TX. intros Hi Hbuf.
  assert (Hfit : (List.length (fmt_lu i) + 1 <= number_capacity)%nat).
  { apply fits_iff_small; unfold buffer_limit;
      change (2 ^ 64) with 18446744073709551616; lia. }
  split; [|split].
  - rewrite length_app. simpl. exact Hfit.
  - destruct (sprintf_lu_Some buf i) as [buf' E]; [rewrite Hbuf; exact Hfit|].
    exists buf'. split; [exact E|].
    apply sprintf_lu_inv in E. destruct E as (_ & Hlen & Hstr).
    split; [congruence|exact Hstr].
  - destruct (run_main_total w) as [s E]. rewrite E. discriminate.
Qed.

Lemma shape_now_events (N : Z) (w : W) (s : State W)
      (t0 : Z) (h : Handle) (outs : list SubmitOutcome) (t1 : Z) :
  run_shape N w s t0 h outs t1 ->
  filter is_now (trace s) = [EvNow system_clock t0; EvNow system_clock t1].
Proof.
  intros (Htr & _). rewrite Htr.
  rewrite !filter_app, (filter_send_events_other is_now) by reflexivity.
  reflexivity.
Qed.

Lemma shape_count_other (p : Event -> bool) (N : Z) (w : W) (s : State W)
      (t0 : Z) (h : Handle) (outs : list SubmitOutcome) (t1 : Z) :
  (forall h' k v o, p (EvSend h' k v o) = false) ->
  run_shape N w s t0 h outs t1 ->
  count p (trace s)
  = (count p [EvNow system_clock t0; EvCreate address credential h]
     + count p [EvDestroy h; EvNow system_clock t1])%nat.
Proof.
  intros Hp (Htr & _). rewrite Htr.
  rewrite !count_app, (count_send_events_other p) by exact Hp. lia.
Qed.

Lemma shape_handles (N : Z) (w : W) (s : State W)
      (t0 : Z) (h : Handle) (outs : list SubmitOutcome) (t1 : Z) :
  run_shape N w s t0 h outs t1 ->
  Forall (fun e => handle_used e = None \/ handle_used e = Some h) (trace s).
Proof.
  intros (Htr & _). rewrite Htr.
  repeat (apply Forall_app; split).
  - repeat constructor.
  - eapply Forall_impl; [|apply send_events_handle].
    intros e He. right. exact He.
  - repeat constructor; right; reflexivity.
Qed.


Lemma shape_responses (N : Z) (w : W) (s : State W)
      (t0 : Z) (h : Handle) (outs : list SubmitOutcome) (t1 : Z) :
  run_shape N w s t0 h outs t1 ->
  map response (trace s)
  = [RTime t0; RHandle h] ++ map ROutcome outs ++ [RVoid; RTime t1].
Proof.
  intros (Htr & _). rewrite Htr.
  rewrite !map_app, responses_send_events. reflexivity.
Qed.

Lemma shape_create_In (N : Z) (w : W) (s : State W)
      (t0 : Z) (h : Handle) (outs : list SubmitOutcome) (t1 : Z)
      (a c : string) (h' : Handle) :
  run_shape N w s t0 h outs t1 ->
  In (EvCreate a c h') (trace s) ->
  a = address /\ c = credential /\ h' = h.
Proof.
  intros (Htr & _) Hin. rewrite Htr in Hin.
  apply in_app_or in Hin. destruct Hin as [Hin|Hin].
  - simpl in Hin. destruct Hin as [E|[E|[]]]; [discriminate|].
    injection E as <- <- <-. repeat split.
  - apply in_app_or in Hin. destruct Hin as [Hin|Hin].
    + apply send_events_In in Hin. discriminate.
    + simpl in Hin. destruct Hin as [E|[E|[]]]; discriminate.
Qed.

(** C2, as the code has it: the reported TPS is the requested count
    [NUM_TX] (not the number of acknowledged writes) over the elapsed
    seconds, in binary64 arithmetic; the seconds are the microseconds
    between the two clock readings divided by 1000 twice.  When the
    microsecond count is zero, the seconds are +0.0 and the division
    gives +infinity: a defined value, and no fault. *)
Theorem tps_is_requested_count_over_seconds (w : W) :
  exists s t0 t1 seconds,
    run_main w = inr (0, s)
    /\ filter is_now (trace s) = [EvNow system_clock t0; EvNow system_clock t1]
    /\ seconds
       = Double.div
           (Double.div (Double.of_int (elapsed_microseconds t0 t1))
                       (Double.of_int 1000))
           (Double.of_int 1000)
    /\ filter is_number (cout s)
       = [OInt 10000; ODouble seconds;
          ODouble (Double.div (Double.of_int NUM_TX) seconds)]
    /\ (elapsed_microseconds t0 t1 = 0 ->
        seconds = Double.pos_zero
        /\ Double.div (Double.of_int NUM_TX) seconds = Double.pos_infinity).
Proof.
  destruct (main_runs w) as (s & t0 & h & outs & t1 & Hrun & Hshape).
  exists s, t0, t1, (to_seconds (elapsed_microseconds t0 t1)).
  split; [exact Hrun|]. split; [apply (shape_now_events _ _ _ _ _ _ _ Hshape)|].
  split; [reflexivity|]. split.
  - destruct Hshape as (_ & _ & Hcout & _). rewrite Hcout. reflexivity.
  - intros ->. split; reflexivity.
Qed.

(** C3, as the code has it: both timestamps come from [system_clock],
    which is not monotonic; the first is read before the client is
    created and the second after it is destroyed, so the elapsed time
    covers connection setup, the [NUM_TX] writes and teardown. *)
Theorem timing_spans_setup_loop_and_teardown (w : W) :
  exists s t0 h outs t1,
    run_main w = inr (0, s)
    /\ trace s = [EvNow system_clock t0; EvCreate address credential h]
                   ++ send_events h 0 outs
                   ++ [EvDestroy h; EvNow system_clock t1]
    /\ List.length outs = Z.to_nat 10000
    /\ is_steady system_clock = false
    /\ elapsed_microseconds t0 t1
       = Z.quot (wrap_int64 (t1 - t0)) ticks_per_microsecond
    /\ In (ODouble (to_seconds (elapsed_microseconds t0 t1))) (cout s).
Proof.
  destruct (main_runs w) as (s & t0 & h & outs & t1 & Hrun & Hshape).
  exists s, t0, h, outs, t1.
  destruct Hshape as (Htr & Hlen & Hcout & _).
  split; [exact Hrun|]. split; [exact Htr|]. split; [exact Hlen|].
  split; [reflexivity|]. split; [reflexivity|].
  rewrite Hcout. unfold report. simpl. tauto.
Qed.

(** C4, as the code has it: when [create_client_instance] hands back a
    null pointer, [main] does not notice.  It still submits all
    [NUM_TX] transactions, on the null handle, destroys that handle
    once, prints the usual report and returns 0. *)
Theorem connect_failure_goes_unnoticed (w : W) :
  connect_failed
    (fst (create_client_instance address credential
            (snd (system_clock_now w)))) = true ->
  exists s t0 t1,
    run_main w = inr (0, s)
    /\ In (EvCreate address credential null_handle) (trace s)
    /\ submissions (trace s)
       = map (fun i => (key_namespace, value_of i)) (counters 0 (Z.to_nat 10000))
    /\ Forall (fun e => handle_used e = None
                        \/ handle_used e = Some null_handle) (trace s)
    /\ count is_destroy (trace s) = 1%nat
    /\ cout s = report NUM_TX (to_seconds (elapsed_microseconds t0 t1)).
Proof.
  intros Hfail.
  destruct (main_runs w) as (s & t0 & h & outs & t1 & Hrun & Hshape).
  assert (Hh : h = null_handle).
  { destruct Hshape as (_ & _ & _ & _ & Hh). rewrite <- Hh in Hfail.
    unfold connect_failed in Hfail. apply Z.eqb_eq in Hfail. exact Hfail. }
  subst h. exists s, t0, t1.
  split; [exact Hrun|]. split.
  { destruct Hshape as (Htr & _). rewrite Htr. simpl. tauto. }
  split; [apply (shape_submissions _ _ _ _ _ _ _ Hshape)|].
  split; [apply (shape_handles _ _ _ _ _ _ _ Hshape)|].
  split.
  { rewrite (shape_count_other is_destroy _ _ _ _ _ _ _ ltac:(reflexivity) Hshape).
    reflexivity. }
  destruct Hshape as (_ & _ & Hcout & _). exact Hcout.
Qed.

(** C5, as the code has it: the report carries three quantities and no
    more: the requested count [NUM_TX]; the elapsed seconds, which are the
    microseconds between the two clock readings of the run divided by
    1000 twice; and the TPS, which is [NUM_TX] divided by these seconds.
    There is no field for the number of successful submissions. *)
Theorem report_has_three_quantities (w : W) :
  exists s t0 t1 seconds,
    run_main w = inr (0, s)
    /\ filter is_now (trace s) = [EvNow system_clock t0; EvNow system_clock t1]
    /\ seconds
       = Double.div
           (Double.div
              (Double.of_int
                 (Z.quot (wrap_int64 (t1 - t0)) ticks_per_microsecond))
              (Double.of_int 1000))
           (Double.of_int 1000)
    /\ cout s
       = [OStr "Sending "; OInt 10000; OStr " transactions took ";
          ODouble seconds; OStr "s, resulting in ";
          ODouble (Double.div (Double.of_int 10000) seconds);
          OStr "TPS."; OEndl]
    /\ filter is_number (cout s)
       = [OInt 10000; ODouble seconds;
          ODouble (Double.div (Double.of_int 10000) seconds)].
Proof.
  destruct (main_runs w) as (s & t0 & h & outs & t1 & Hrun & Hshape).
  exists s, t0, t1, (to_seconds (elapsed_microseconds t0 t1)).
  split; [exact Hrun|].
  split; [apply (shape_now_events _ _ _ _ _ _ _ Hshape)|].
  split; [reflexivity|].
  destruct Hshape as (_ & _ & Hcout & _). rewrite Hcout.
  split; reflexivity.
Qed.

(** C8, as the code has it: [main] takes no input.  Every run connects
    to ["127.0.0.1:3133"] with the one built-in credential, submits
    10000 transactions, and uses the key ["prellblock"]. *)
Theorem configuration_is_fixed (w : W) :
  exists s,
    run_main w = inr (0, s)
    /\ uses_config
         "127.0.0.1:3133"
         "406ed6170c8672e18707fb7512acf3c9dbfc6e5ad267d9a57b9c486a94d99dcc"
         10000 "prellblock" (trace s)
    /\ forall a c h,
        In (EvCreate a c h) (trace s) ->
        a = "127.0.0.1:3133"%string
        /\ c = "406ed6170c8672e18707fb7512acf3c9dbfc6e5ad267d9a57b9c486a94d99dcc"%string.
Proof.
  destruct (main_runs w) as (s & t0 & h & outs & t1 & Hrun & Hshape).
  exists s. split; [exact Hrun|].
  pose proof (shape_submissions _ _ _ _ _ _ _ Hshape) as Hsub.
  split.
  - unfold uses_config. split.
    + exists h. destruct Hshape as (Htr & _). rewrite Htr. simpl. tauto.
    + split.
      * rewrite Hsub, length_map, counters_length. reflexivity.
      * rewrite Hsub. apply Forall_forall. intros tx Hin.
        apply in_map_iff in Hin. destruct Hin as (i & <- & _). reflexivity.
  - intros a c h' Hin.
    destruct (shape_create_In _ _ _ _ _ _ _ _ _ _ Hshape Hin) as (-> & -> & _).
    split; reflexivity.
Qed.


(** C10: two runs that got the same answers from the clock and from
    the library return the same exit code, submit the same
    (namespace, value) pairs in the same order, and print the same
    report, item by item and character by character. *)
Theorem runs_are_deterministic
        (w1 w2 : W) (c1 c2 : Z) (s1 s2 : State W)
        (show_double : Double.double -> string) :
  run_main w1 = inr (c1, s1) ->
  run_main w2 = inr (c2, s2) ->
  map response (trace s1) = map response (trace s2) ->
  c1 = c2
  /\ submissions (trace s1) = submissions (trace s2)
  /\ cout s1 = cout s2
  /\ render show_double (cout s1) = render show_double (cout s2).
Proof.
  intros E1 E2 Hresp.
  destruct (run_main_inv w1 c1 s1 E1) as (-> & t0 & h & outs & t1 & Hs1).
  destruct (run_main_inv w2 c2 s2 E2) as (-> & t0' & h' & outs' & t1' & Hs2).
  rewrite (shape_responses _ _ _ _ _ _ _ Hs1),
          (shape_responses _ _ _ _ _ _ _ Hs2) in Hresp.
  simpl in Hresp. injection Hresp as Ht0 _ Hrest.
  change [RVoid; RTime t1] with ([RVoid] ++ [RTime t1]) in Hrest.
  change [RVoid; RTime t1'] with ([RVoid] ++ [RTime t1']) in Hrest.
  rewrite !app_assoc in Hrest. apply app_inj_tail in Hrest.
  destruct Hrest as (_ & Ht1). injection Ht1 as Ht1. subst t0' t1'.
  assert (Hcout : cout s1 = cout s2).
  { destruct Hs1 as (_ & _ & Hc1 & _). destruct Hs2 as (_ & _ & Hc2 & _).
    congruence. }
  split; [reflexivity|]. split.
  - rewrite (shape_submissions _ _ _ _ _ _ _ Hs1),
            (shape_submissions _ _ _ _ _ _ _ Hs2). reflexivity.
  - split; [exact Hcout|]. rewrite Hcout. reflexivity.
Qed.

End AnyWorld.

Import Sim.

Lemma same_result {W : Type} (c c' : Z) (s s' : State W) :
  @inr Fault _ (c, s) = inr (c', s') -> s = s'.
Proof. intros E. injection E as _ E. exact E. Qed.

(** *** Runs in the simulated world *)

(** The run where the endpoint rejects every write, in closed form. *)
Lemma rejecting_run :
  run_main rejecting
  = inr (0, mkState
              (mkWorld [] true false
                       (Some (mkSession address credential Closed)) 1)
              ([EvNow system_clock 1000000000;
                EvCreate address credential the_handle]
                 ++ send_events the_handle 0 (repeat RemoteError (Z.to_nat NUM_TX))
                 ++ [EvDestroy the_handle; EvNow system_clock 3000000000])
              (report NUM_TX (to_seconds 2000000))).
Proof.
  rewrite run_main_eq.
  rewrite (run_stable NUM_TX rejecting RemoteError).
  - reflexivity.
  - intros k v. reflexivity.
  - exact num_tx_fits.
Qed.

(** The run where the endpoint cannot be reached. *)
Lemma unreachable_run :
  run_main unreachable
  = inr (0, mkState
              (mkWorld [] false false None 1)
              ([EvNow system_clock 1000000000;
                EvCreate address credential null_handle]
                 ++ send_events null_handle 0 (repeat RemoteError (Z.to_nat NUM_TX))
                 ++ [EvDestroy null_handle; EvNow system_clock 3000000000])
              (report NUM_TX (to_seconds 2000000))).
Proof.
  rewrite run_main_eq.
  rewrite (run_stable NUM_TX unreachable RemoteError).
  - reflexivity.
  - intros k v. reflexivity.
  - exact num_tx_fits.
Qed.

(** The run where both clock readings are 5000. *)
Lemma instant_run :
  run_main instant
  = inr (0, mkState
              (mkWorld [] true true
                       (Some (mkSession address credential Closed)) 1)
              ([EvNow system_clock 5000;
                EvCreate address credential the_handle]
                 ++ send_events the_handle 0 (repeat Ack (Z.to_nat NUM_TX))
                 ++ [EvDestroy the_handle; EvNow system_clock 5000])
              (report NUM_TX (to_seconds 0))).
Proof.
  rewrite run_main_eq.
  rewrite (run_stable NUM_TX instant Ack).
  - reflexivity.
  - intros k v. reflexivity.
  - exact num_tx_fits.
Qed.

(** The two healthy worlds give the same answers. *)
Lemma healthy_run (n : nat) :
  run_main (mkWorld [1000000000; 3000000000] true true None n)
  = inr (0, mkState
              (mkWorld [] true true
                       (Some (mkSession address credential Closed)) (S n))
              ([EvNow system_clock 1000000000;
                EvCreate address credential the_handle]
                 ++ send_events the_handle 0 (repeat Ack (Z.to_nat NUM_TX))
                 ++ [EvDestroy the_handle; EvNow system_clock 3000000000])
              (report NUM_TX (to_seconds 2000000))).
Proof.
  rewrite run_main_eq.
  rewrite (run_stable NUM_TX _ Ack).
  - reflexivity.
  - intros k v. reflexivity.
  - exact num_tx_fits.
Qed.




(** *** Concrete runs *)

(** Ten digits do not fit: the first counter that overruns [number]. *)
Lemma tenth_digit_overruns :
  sprintf_lu number_init 999999999
  = Some (fmt_lu 999999999 ++ [NUL])
  /\ sprintf_lu number_init 1000000000 = None.
Proof. split; reflexivity. Qed.

(** The formatted values at the ends of the run. *)
Lemma values_at_the_ends :
  value_of 0 = "0"%string /\ value_of 9999 = "9999"%string.
Proof. split; reflexivity. Qed.


(** C7 at the largest counter of the run. *)
Lemma counter_fits_number_buffer_witness :
  (List.length (fmt_lu 9999 ++ [NUL]) <= number_capacity)%nat
  /\ (exists buf',
         sprintf_lu number_init 9999 = Some buf'
         /\ List.length buf' = number_capacity
         /\ c_str buf' = fmt_lu 9999)
  /\ run_main healthy <> inl BufferOverflow.
Proof.
  apply (counter_fits_number_buffer 9999 number_init healthy).
  - unfold NUM_TX. lia.
  - reflexivity.
Defined.

(** C2 where both clock readings are the same: infinity is printed. *)
Lemma tps_is_requested_count_over_seconds_witness :
  exists s,
    run_main instant = inr (0, s)
    /\ In (ODouble Double.pos_infinity) (cout s).
Proof.
  destruct (tps_is_requested_count_over_seconds instant)
    as (s & t0 & t1 & seconds & Hrun & Hnow & Hsec & Hcout & Hzero).
  exists s. split; [exact Hrun|].
  pose proof instant_run as Hev. rewrite Hrun in Hev.
  apply same_result in Hev. rewrite Hev in Hnow. clear Hev.
  cbn [trace] in Hnow.
  rewrite !filter_app, (filter_send_events_other is_now) in Hnow by reflexivity.
  injection Hnow as <- <-.
  destruct (Hzero eq_refl) as (_ & Hinf).
  apply (proj1 (filter_In is_number _ (cout s))).
  rewrite Hcout, Hinf. simpl. tauto.
Defined.

(** C4 where the endpoint cannot be reached. *)
Lemma connect_failure_goes_unnoticed_witness :
  exists s,
    run_main unreachable = inr (0, s)
    /\ In (EvCreate address credential null_handle) (trace s)
    /\ List.length (submissions (trace s)) = Z.to_nat 10000.
Proof.
  assert (Hfail : connect_failed
                    (fst (create_client_instance address credential
                            (snd (system_clock_now unreachable)))) = true)
    by reflexivity.
  destruct (connect_failure_goes_unnoticed unreachable Hfail)
    as (s & t0 & t1 & Hrun & Hcreate & Hsub & _).
  exists s. split; [exact Hrun|]. split; [exact Hcreate|].
  rewrite Hsub, length_map. apply counters_length.
Defined.

(** C10 for two worlds that differ where no answer shows it. *)
Lemma runs_are_deterministic_witness :
  exists s1 s2,
    run_main healthy = inr (0, s1)
    /\ run_main healthy_again = inr (0, s2)
    /\ submissions (trace s1) = submissions (trace s2)
    /\ cout s1 = cout s2.
Proof.
  destruct (run_main_total healthy) as [s1 E1].
  destruct (run_main_total healthy_again) as [s2 E2].
  exists s1, s2. split; [exact E1|]. split; [exact E2|].
  assert (Hresp : map response (trace s1) = map response (trace s2)).
  { pose proof (healthy_run 0) as H1. pose proof (healthy_run 7) as H2.
    fold healthy in H1. fold healthy_again in H2.
    rewrite E1 in H1. rewrite E2 in H2.
    apply same_result in H1. apply same_result in H2.
    rewrite H1, H2. reflexivity. }
  destruct (runs_are_deterministic healthy healthy_again 0 0 s1 s2
              (fun _ => EmptyString) E1 E2 Hresp) as (_ & Hsub & Hcout & _).
  split; assumption.
Defined.

(** *** Where the code parts from the design *)

(** C2: where the endpoint rejects every write, no write is acknowledged,
    and the TPS printed is 10000 / 2 s all the same, not 0 / 2 s. *)
Lemma tps_ignores_failed_writes :
  exists s seconds reported,
    run_main rejecting = inr (0, s)
    /\ successful_count (trace s) = 0
    /\ filter is_number (cout s) = [OInt 10000; ODouble seconds; ODouble reported]
    /\ ~ tps_counts_successes (trace s) seconds reported.
Proof.
  eexists _, (to_seconds 2000000), (tps NUM_TX (to_seconds 2000000)).
  split; [exact rejecting_run|]. cbn [trace cout].
  assert (Hk : successful_count
                 ([EvNow system_clock 1000000000;
                   EvCreate address credential the_handle]
                    ++ send_events the_handle 0
                         (repeat RemoteError (Z.to_nat NUM_TX))
                    ++ [EvDestroy the_handle; EvNow system_clock 3000000000]) = 0).
  { rewrite !successful_count_app, successful_count_send_events. reflexivity. }
  split; [exact Hk|]. split; [reflexivity|].
  unfold tps_counts_successes. rewrite Hk. vm_compute. discriminate.
Qed.

(** C3: in the healthy world the first clock reading comes before the
    client is created, not after. *)
Lemma start_is_read_before_connecting :
  exists s,
    run_main healthy = inr (0, s)
    /\ ~ timing_spans_loop_only (trace s).
Proof.
  destruct (main_runs healthy) as (s & t0 & h & outs & t1 & Hrun & Hshape).
  exists s. split; [exact Hrun|].
  destruct Hshape as (Htr & _).
  intros (a & c & h' & c0 & t0' & sends & c1 & t1' & E & _).
  rewrite Htr in E. simpl in E. discriminate E.
Qed.

(** C4: where the endpoint cannot be reached, the handle is null, and yet
    10000 transactions are submitted, the report is printed and the exit
    code is 0. *)
Lemma unreachable_endpoint_is_not_fatal :
  exists s,
    run_main unreachable = inr (0, s)
    /\ In (EvCreate address credential null_handle) (trace s)
    /\ List.length (submissions (trace s)) = Z.to_nat 10000
    /\ ~ aborted_on_connect_failure 0 (trace s) (cout s).
Proof.
  eexists. split; [exact unreachable_run|]. cbn [trace cout].
  assert (Hn : List.length
                 (submissions
                    ([EvNow system_clock 1000000000;
                      EvCreate address credential null_handle]
                       ++ send_events null_handle 0
                            (repeat RemoteError (Z.to_nat NUM_TX))
                       ++ [EvDestroy null_handle; EvNow system_clock 3000000000]))
               = Z.to_nat 10000).
  { rewrite !submissions_app, submissions_send_events.
    rewrite !length_app, length_map, counters_length, repeat_length.
    cbn [submissions List.length]. unfold NUM_TX. lia. }
  split; [apply in_or_app; left; right; left; reflexivity|].
  split; [exact Hn|].
  intros (Hnone & _ & _). rewrite Hnone in Hn. discriminate Hn.
Qed.

(** C5: where the endpoint rejects every write, the successful count is 0
    and the report has no item that carries it. *)
Lemma report_lacks_successful_count :
  exists s,
    run_main rejecting = inr (0, s)
    /\ successful_count (trace s) = 0
    /\ forall seconds rate,
        ~ report_has_four (cout s) NUM_TX (successful_count (trace s)) seconds rate.
Proof.
  eexists. split; [exact rejecting_run|]. cbn [trace cout].
  assert (Hk : successful_count
                 ([EvNow system_clock 1000000000;
                   EvCreate address credential the_handle]
                    ++ send_events the_handle 0
                         (repeat RemoteError (Z.to_nat NUM_TX))
                    ++ [EvDestroy the_handle; EvNow system_clock 3000000000]) = 0).
  { rewrite !successful_count_app, successful_count_send_events. reflexivity. }
  split; [exact Hk|].
  intros seconds rate (_ & Hsucc & _). rewrite Hk in Hsucc.
  vm_compute in Hsucc.
  repeat match goal with
         | H : _ \/ _ |- _ => destruct H
         | H : False |- _ => destruct H
         | H : _ = _ |- _ => discriminate H
         end.
Qed.

(** C8: no run of [main] connects to an address of the caller's choice,
    since [main] has nowhere to take it from. *)
Lemma main_takes_no_configuration :
  (exists s, run_main healthy = inr (0, s))
  /\ ~ (forall (a c : string) (n : Z) (ns : string),
           exists (w : World) (code : Z) (s : State World),
             run_main w = inr (code, s) /\ uses_config a c n ns (trace s)).
Proof.
  split; [apply run_main_total|].
  intros H.
  destruct (H "10.0.0.1:9000" "token" 5 "bench")%string
    as (w & code & s & Hrun & (h & Hin) & _).
  destruct (run_main_inv _ _ _ Hrun) as (_ & t0 & h' & outs & t1 & Hshape).
  destruct (shape_create_In _ _ _ _ _ _ _ _ _ _ Hshape Hin) as (Ha & _).
  discriminate Ha.
Qed.

End Properties.

(** ** Facts about binary64 rounding and division *)

Module DoubleFacts.

Import Double.

(** Rounding a non-negative mantissa never yields a NaN and keeps the sign
    it was given. *)
Lemma shr_1_nonneg (mrs : shr_record) : 0 <= shr_m mrs -> 0 <= shr_m (shr_1 mrs).
Proof.
  destruct mrs as [m r s]. simpl. intros Hm.
  destruct m as [|[p|p|]|p]; simpl; lia.
Qed.

Lemma iter_shr_1_nonneg (p : positive) :
  forall mrs, 0 <= shr_m mrs -> 0 <= shr_m (iter_pos shr_1 p mrs).
Proof.
  induction p as [p IH|p IH|]; intros mrs Hm; simpl.
  - apply IH, IH, shr_1_nonneg, Hm.
  - apply IH, IH, Hm.
  - apply shr_1_nonneg, Hm.
Qed.

Lemma shr_fexp_nonneg (m e : Z) (l : location) :
  0 <= m -> 0 <= shr_m (fst (shr_fexp prec emax m e l)).
Proof.
  intros Hm. unfold shr_fexp, shr.
  assert (H0 : 0 <= shr_m (shr_record_of_loc m l)).
  { destruct l as [|[]]; simpl; exact Hm. }
  destruct (fexp prec emax (Zdigits2 m + e) - e) as [|p|p]; simpl;
    [exact H0|apply iter_shr_1_nonneg, H0|exact H0].
Qed.

Lemma round_nearest_even_nonneg (m : Z) (l : location) :
  0 <= m -> 0 <= round_nearest_even m l.
Proof.
  intros Hm. destruct l as [|[]]; simpl; try lia.
  destruct (Z.even m); lia.
Qed.

Lemma binary_round_aux_signed (sx : bool) (mx ex : Z) (lx : location) :
  0 <= mx -> signed_as sx (binary_round_aux prec emax sx mx ex lx).
Proof.
  intros Hm. unfold binary_round_aux.
  pose proof (shr_fexp_nonneg mx ex lx Hm) as H1.
  destruct (shr_fexp prec emax mx ex lx) as [mrs' e']. simpl in H1.
  pose proof (shr_fexp_nonneg _ e' loc_Exact
                (round_nearest_even_nonneg _ (loc_of_shr_record mrs') H1)) as H2.
  destruct (shr_fexp prec emax _ e' loc_Exact) as [mrs'' e'']. simpl in H2.
  destruct (shr_m mrs'') as [|m|m]; [split; reflexivity| |lia].
  destruct (e'' <=? emax - prec); split; reflexivity.
Qed.

Lemma of_int_signed (z : Z) : signed_as (z <? 0) (of_int z).
Proof.
  unfold of_int, binary_normalize. destruct z as [|p|p]; [split; reflexivity| |];
    unfold binary_round;
    destruct (shl_align _ _ _) as [mz ez]; apply binary_round_aux_signed; lia.
Qed.

Lemma div_eucl_nonneg (a b : Z) : 0 <= a -> 0 < b -> 0 <= fst (Z.div_eucl a b).
Proof. intros Ha Hb. change (fst (Z.div_eucl a b)) with (a / b). apply Z.div_pos; lia. Qed.

Lemma div_finite_signed (sx sy : bool) (x : double) (my : positive) (ey : Z) :
  signed_as sx x ->
  signed_as (xorb sx sy) (div x (S754_finite sy my ey)).
Proof.
  intros [Hn Hs]. destruct x as [s|s| |s mx exx]; simpl in Hn, Hs; try discriminate;
    subst s; unfold div; simpl; try (split; reflexivity).
  unfold SFdiv_core_binary.
  set (m' := match _ - _ with Z0 => _ | Zpos _ => _ | Zneg _ => _ end).
  assert (Hm' : 0 <= m').
  { unfold m'. destruct (_ - _); [lia|apply Z.shiftl_nonneg; lia|lia]. }
  pose proof (div_eucl_nonneg m' (Z.pos my) Hm' ltac:(lia)) as Hq.
  destruct (Z.div_eucl m' (Z.pos my)) as [q r]. simpl in Hq.
  apply binary_round_aux_signed. exact Hq.
Qed.

Lemma finite_div_signed (sx sy : bool) (mx : positive) (exx : Z) (y : double) :
  signed_as sy y ->
  signed_as (xorb sx sy) (div (S754_finite sx mx exx) y).
Proof.
  intros [Hn Hs]. destruct y as [s|s| |s my ey]; simpl in Hn, Hs; try discriminate;
    subst s; try (split; reflexivity).
  apply (div_finite_signed sx sy (S754_finite sx mx exx)). split; reflexivity.
Qed.

End DoubleFacts.

(** ** Edge cases of the harness *)

Module EdgeCases.

Import CStr CStrFacts Double DoubleFacts Harness HarnessFacts.

Lemma digit_char_is_decimal (d : Z) :
  0 <= d <= 9 -> is_decimal_digit (digit_char d) = true.
Proof.
  intros Hd. unfold is_decimal_digit, digit_char.
  rewrite nat_ascii_embedding by lia.
  apply andb_true_intro. split; apply Nat.leb_le; lia.
Qed.

Lemma lu_digits_decimal (fuel : nat) :
  forall n acc,
    Forall (fun c => is_decimal_digit c = true) acc ->
    Forall (fun c => is_decimal_digit c = true) (lu_digits fuel n acc).
Proof.
  induction fuel as [|fuel IH]; intros n acc Hacc; simpl; [exact Hacc|].
  assert (Hd : Forall (fun c => is_decimal_digit c = true)
                      (digit_char (n mod 10) :: acc)).
  { constructor; [|exact Hacc].
    apply digit_char_is_decimal. pose proof (Z.mod_pos_bound n 10). lia. }
  destruct (n / 10 =? 0); [exact Hd | apply IH; exact Hd].
Qed.

Lemma lu_digits_leading (fuel : nat) :
  forall n acc,
    0 < n < 10 ^ Z.of_nat fuel ->
    exists d rest, lu_digits fuel n acc = digit_char d :: rest /\ 1 <= d <= 9.
Proof.
  induction fuel as [|fuel IH]; intros n acc Hn.
  - simpl in Hn. lia.
  - simpl.
    pose proof (Z.mod_pos_bound n 10 ltac:(lia)) as Hm.
    pose proof (Z.div_mod n 10 ltac:(lia)) as Hdm.
    destruct (n / 10 =? 0) eqn:E.
    + apply Z.eqb_eq in E. exists (n mod 10), acc. split; [reflexivity|lia].
    + apply Z.eqb_neq in E. apply IH. split.
      * assert (0 <= n / 10) by (apply Z.div_pos; lia). lia.
      * apply Z.div_lt_upper_bound; [lia|].
        replace (Z.of_nat (S fuel)) with (Z.succ (Z.of_nat fuel)) in Hn by lia.
        rewrite Z.pow_succ_r in Hn by lia. lia.
Qed.

(** X1: for a 64-bit counter and the ten bytes of [number], [sprintf]
    runs past the end of the array exactly when the counter has ten
    digits or more, that is from 10^9 on. *)
Theorem sprintf_overruns_from_ten_digits (i : Z) (buf : list ascii) :
  0 <= i < 2 ^ 64 ->
  List.length buf = number_capacity ->
  (sprintf_lu buf i = None <-> 10 ^ 9 <= i).
Proof.
  intros Hi Hbuf. pose proof (fits_iff_small i Hi) as Hfit.
  unfold buffer_limit in Hfit. split.
  - intros Hnone. destruct (Z_lt_ge_dec i (10 ^ 9)) as [L|G]; [|lia].
    apply Hfit in L. rewrite <- Hbuf in L.
    destruct (sprintf_lu_Some buf i L) as [buf' E]. congruence.
  - intros Hge. destruct (sprintf_lu buf i) as [buf'|] eqn:E; [|reflexivity].
    apply sprintf_lu_inv in E. destruct E as (L & _). rewrite Hbuf in L.
    apply Hfit in L. lia.
Qed.

(** X2: whatever [number] held before, the C string that [sprintf] leaves
    in it for a 64-bit counter [i] is the canonical decimal numeral of
    [i]: between 1 and 20 characters, all of them decimal digits, no
    leading zero unless [i] is 0, and it reads back as [i]. *)
Theorem value_is_canonical_decimal (i : Z) (buf buf' : list ascii) :
  0 <= i < 2 ^ 64 ->
  sprintf_lu buf i = Some buf' ->
  Forall (fun c => is_decimal_digit c = true) (c_str buf')
  /\ (1 <= List.length (c_str buf') <= 20)%nat
  /\ (hd NUL (c_str buf') = "0"%char -> i = 0)
  /\ parse_lu (c_str buf') = i.
Proof.
  intros Hi Hsp. apply sprintf_lu_inv in Hsp. destruct Hsp as (_ & _ & ->).
  assert (H20 : i < 10 ^ Z.of_nat lu_max_digits).
  { unfold lu_max_digits. change (10 ^ Z.of_nat 20) with 100000000000000000000.
    change (2 ^ 64) with 18446744073709551616 in Hi. lia. }
  split; [apply lu_digits_decimal; constructor|]. split.
  { split.
    - destruct (Z.eq_dec i 0) as [->|Hnz]; [simpl; lia|].
      destruct (lu_digits_leading lu_max_digits i [] ltac:(lia)) as (d & rest & E & _).
      unfold fmt_lu. rewrite E. simpl. lia.
    - apply (fmt_lu_length_le 20 i); [lia|].
      change (Z.of_nat 20) with (Z.of_nat lu_max_digits). lia. }
  split; [|apply parse_fmt_lu; exact Hi].
  intros Hhd. destruct (Z.eq_dec i 0) as [E|Hnz]; [exact E|]. exfalso.
  destruct (lu_digits_leading lu_max_digits i [] ltac:(lia)) as (d & rest & E & Hd).
  unfold fmt_lu in Hhd. rewrite E in Hhd. simpl in Hhd.
  apply (f_equal digit_val) in Hhd. rewrite digit_val_char in Hhd by lia.
  unfold digit_val in Hhd. simpl in Hhd. lia.
Qed.

Section AnyWorld.

Context {W : Type} {client_lib : PrellblockClient W} {clock : SystemClock W}.


(** X4: [duration_cast<microseconds>] truncates towards zero.  For a tick
    difference that fits 64 bits, the microsecond count times the ticks
    per microsecond is at most the difference in absolute value and less
    than one microsecond away from it; it is zero exactly when the
    readings are less than one microsecond apart, and it has the sign of
    the difference. *)
Theorem elapsed_truncates_towards_zero (t0 t1 : Z) :
  0 < ticks_per_microsecond ->
  - 2 ^ 63 <= t1 - t0 < 2 ^ 63 ->
  Z.abs (elapsed_microseconds t0 t1) * ticks_per_microsecond <= Z.abs (t1 - t0)
  /\ Z.abs (t1 - t0) < (Z.abs (elapsed_microseconds t0 t1) + 1) * ticks_per_microsecond
  /\ (elapsed_microseconds t0 t1 = 0 <-> Z.abs (t1 - t0) < ticks_per_microsecond)
  /\ (0 <= t1 - t0 -> 0 <= elapsed_microseconds t0 t1)
  /\ (t1 - t0 <= 0 -> elapsed_microseconds t0 t1 <= 0).
Proof.
  intros Htpu Hrange. unfold elapsed_microseconds.
  assert (Hw : wrap_int64 (t1 - t0) = t1 - t0).
  { unfold wrap_int64. rewrite Z.mod_small; [lia|].
    change (2 ^ 64) with 18446744073709551616.
    change (2 ^ 63) with 9223372036854775808 in *. lia. }
  rewrite Hw. clear Hw Hrange.
  set (d := t1 - t0). set (k := ticks_per_microsecond) in *.
  pose proof (Z.quot_rem' d k) as Hqr.
  destruct (Z_le_gt_dec 0 d) as [Hd|Hd].
  - pose proof (Z.rem_bound_pos d k Hd Htpu) as Hr.
    assert (0 <= Z.quot d k) by (apply Z.quot_pos; lia).
    repeat split; try nia.
  - pose proof (Z.rem_bound_pos (- d) k ltac:(lia) Htpu) as Hr.
    rewrite Z.rem_opp_l in Hr by lia.
    assert (Z.quot d k <= 0).
    { rewrite <- (Z.opp_involutive d), Z.quot_opp_l by lia.
      assert (0 <= Z.quot (- d) k) by (apply Z.quot_pos; lia). lia. }
    repeat split; try nia.
Qed.

Lemma thousand_is_finite : exists m e, of_int 1000 = S754_finite false m e.
Proof. eexists _, _. reflexivity. Qed.

Lemma num_tx_is_finite : exists m e, of_int NUM_TX = S754_finite false m e.
Proof. eexists _, _. reflexivity. Qed.

Lemma to_seconds_signed (us : Z) : signed_as (us <? 0) (to_seconds us).
Proof.
  unfold to_seconds. destruct thousand_is_finite as (m & e & ->).
  rewrite <- (xorb_false_r (us <? 0)). apply div_finite_signed.
  rewrite <- (xorb_false_r (us <? 0)). apply div_finite_signed.
  apply of_int_signed.
Qed.

Lemma tps_signed (us : Z) : signed_as (us <? 0) (tps NUM_TX (to_seconds us)).
Proof.
  unfold tps. destruct num_tx_is_finite as (m & e & ->).
  change (us <? 0) with (xorb false (us <? 0)).
  apply finite_div_signed. apply to_seconds_signed.
Qed.

(** X5: in every run of [main] the two doubles of the report, the seconds
    and the TPS, are numbers, never NaN; and both carry a minus sign
    exactly when the second clock reading lies at least a microsecond
    before the first (the wall clock was set back during the run). *)
Theorem report_numbers_are_never_nan (w : W) :
  exists s t0 t1 seconds rate,
    run_main w = inr (0, s)
    /\ filter is_now (trace s) = [EvNow system_clock t0; EvNow system_clock t1]
    /\ filter is_number (cout s) = [OInt NUM_TX; ODouble seconds; ODouble rate]
    /\ is_nan seconds = false
    /\ is_nan rate = false
    /\ signbit seconds = (elapsed_microseconds t0 t1 <? 0)
    /\ signbit rate = (elapsed_microseconds t0 t1 <? 0).
Proof.
  destruct (main_runs w) as (s & t0 & h & outs & t1 & Hrun & Hshape).
  exists s, t0, t1, (to_seconds (elapsed_microseconds t0 t1)),
    (tps NUM_TX (to_seconds (elapsed_microseconds t0 t1))).
  split; [exact Hrun|]. split.
  { destruct Hshape as (Htr & _). rewrite Htr.
    rewrite !filter_app, (filter_send_events_other is_now) by reflexivity.
    reflexivity. }
  split.
  { destruct Hshape as (_ & _ & Hcout & _). rewrite Hcout. reflexivity. }
  destruct (to_seconds_signed (elapsed_microseconds t0 t1)) as (Hn1 & Hs1).
  destruct (tps_signed (elapsed_microseconds t0 t1)) as (Hn2 & Hs2).
  repeat split; assumption.
Qed.

(** X6: with the macro [NUM_TX] set to 0 the harness still reads the
    clock, creates the client, destroys it and reads the clock again,
    without a single write.  The TPS it prints is 0 / seconds: a zero when
    the seconds are not zero, and NaN when they are, which is the case
    when the elapsed microsecond count is 0. *)
Theorem empty_run_still_connects (w : W) :
  exists s t0 h t1 seconds,
    run 0 w = inr (0, s)
    /\ trace s = [EvNow system_clock t0; EvCreate address credential h;
                  EvDestroy h; EvNow system_clock t1]
    /\ seconds = to_seconds (elapsed_microseconds t0 t1)
    /\ filter is_number (cout s)
       = [OInt 0; ODouble seconds; ODouble (Double.div (Double.of_int 0) seconds)]
    /\ (is_zero seconds = true ->
        Double.div (Double.of_int 0) seconds = S754_nan)
    /\ (is_zero seconds = false ->
        is_zero (Double.div (Double.of_int 0) seconds) = true)
    /\ (elapsed_microseconds t0 t1 = 0 -> is_zero seconds = true).
Proof.
  destruct (run_total 0 w) as [s E]; [vm_compute; discriminate|].
  destruct (run_inv 0 w 0 s E) as (_ & _ & t0 & h & outs & t1 & Hshape).
  exists s, t0, h, t1, (to_seconds (elapsed_microseconds t0 t1)).
  destruct Hshape as (Htr & Hlen & Hcout & _).
  destruct outs as [|o outs]; [|discriminate Hlen].
  split; [exact E|]. split; [exact Htr|]. split; [reflexivity|]. split.
  { rewrite Hcout. reflexivity. }
  destruct (to_seconds_signed (elapsed_microseconds t0 t1)) as (Hn & _).
  split; [|split].
  - destruct (to_seconds _) as [sg|sg| |sg m e]; simpl; try discriminate.
    intros _. reflexivity.
  - destruct (to_seconds _) as [sg|sg| |sg m e]; simpl in *; try discriminate;
      intros _; reflexivity.
  - intros ->. reflexivity.
Qed.

End AnyWorld.

Import Sim.

(** X1 at the first counter with ten digits. *)
Lemma sprintf_overruns_from_ten_digits_witness :
  sprintf_lu number_init 1000000000 = None <-> 10 ^ 9 <= 1000000000.
Proof.
  apply (sprintf_overruns_from_ten_digits 1000000000 number_init).
  - change (2 ^ 64) with 18446744073709551616. lia.
  - reflexivity.
Defined.

(** X2 at the last counter of the run, written over a longer number. *)
Lemma value_is_canonical_decimal_witness :
  Forall (fun c => is_decimal_digit c = true)
         (c_str (fmt_lu 9999 ++ NUL :: skipn 5 (fmt_lu 123456789 ++ [NUL])))
  /\ (1 <= List.length
              (c_str (fmt_lu 9999 ++ NUL :: skipn 5 (fmt_lu 123456789 ++ [NUL])))
       <= 20)%nat
  /\ (hd NUL (c_str (fmt_lu 9999 ++ NUL :: skipn 5 (fmt_lu 123456789 ++ [NUL])))
       = "0"%char -> 9999 = 0)
  /\ parse_lu (c_str (fmt_lu 9999 ++ NUL :: skipn 5 (fmt_lu 123456789 ++ [NUL])))
     = 9999.
Proof.
  apply (value_is_canonical_decimal 9999 (fmt_lu 123456789 ++ [NUL])).
  - change (2 ^ 64) with 18446744073709551616. lia.
  - reflexivity.
Defined.

(** X4 for the nanosecond clock of the simulated world: 2000000500 ticks
    are 2000000 microseconds. *)
Lemma elapsed_truncates_towards_zero_witness :
  elapsed_microseconds (W := World) 1000000000 3000000500 = 2000000
  /\ Z.abs (elapsed_microseconds (W := World) 1000000000 3000000500)
       * ticks_per_microsecond (W := World)
     <= Z.abs (3000000500 - 1000000000).
Proof.
  split; [reflexivity|].
  apply (elapsed_truncates_towards_zero (W := World) 1000000000 3000000500).
  - reflexivity.
  - change (2 ^ 63) with 9223372036854775808. lia.
Defined.

End EdgeCases.
